(** * Graphite DrawContext and the SkSL runtime-shader epilogue

    A shallow embedding of

    - [experimental/graphite/src/DrawContext.cpp] (namespace [skgpu]), and
    - [src/sksl/dsl/DSLRuntimeEffects.cpp] (namespace [SkSL::dsl]),

    followed by the properties their specification states about them.

    C++ vocabulary used throughout:
    - a smart or raw pointer to [T] is an [option T], [nullptr] being [None];
    - a [std::vector<T>] is a [list T], [push_back] appending at the end;
    - [std::move(x)] into a by-value parameter hands the value of [x] to the
      callee and leaves [x] empty (a null [unique_ptr], an empty vector). *)

From Stdlib Require Import List Arith ZArith Lia.
Import ListNotations.

Set Implicit Arguments.

(** ** Pointers *)

Definition sk_sp (T : Type) : Type := option T.
Definition unique_ptr (T : Type) : Type := option T.
Definition ptr (T : Type) : Type := option T.
Abbreviation nullptr := None (only parsing).

(** ** Outcomes of running a piece of code

    A call either returns, or stops the process: by dereferencing a null
    pointer, or because an [SkASSERT] did not hold. *)

Inductive Fault : Type :=
| NullDereference
| AssertionFailure.

Inductive Outcome (A : Type) : Type :=
| Returns (a : A)
| Stops (f : Fault).
Arguments Stops {A} f.

Module skgpu.

(** ** Allocation of draw lists

    The only allocations [DrawContext.cpp] performs on its own account are the
    two [std::make_unique<DrawList>()] calls.  The heap is modelled by the
    number of draw lists allocated so far, and each allocated draw list is
    tagged with its rank in that sequence, which stands for its address. *)

Definition Heap : Type := nat.

Definition M (A : Type) : Type := Heap -> Outcome (A * Heap).

Definition ret {A} (a : A) : M A := fun h => Returns (a, h).

Definition bind {A B} (m : M A) (k : A -> M B) : M B :=
  fun h => match m h with
           | Returns (a, h') => k a h'
           | Stops f => Stops f
           end.

Definition stop {A} (f : Fault) : M A := fun _ => Stops f.

Declare Scope cpp_scope.
Delimit Scope cpp_scope with cpp.
Notation "x <- m ;; k" := (bind m (fun x => k))
  (at level 61, m at next level, right associativity) : cpp_scope.
Notation "m ;; k" := (bind m (fun _ => k))
  (at level 61, right associativity) : cpp_scope.
Local Open Scope cpp_scope.

(** [p->...] on a smart pointer. *)
Definition deref {T} (p : option T) : M T :=
  match p with
  | Some t => ret t
  | None => stop NullDereference
  end.

(** Modelled from the spec: the [SkASSERT] macro ([include/core/SkTypes.h]) is
    not among the sources.  It is taken in its development-build reading, a
    check that stops the process when the condition is false. *)
Definition SkASSERT (cond : bool) : M unit :=
  if cond then ret tt else stop AssertionFailure.

(** ** Collaborator types

    The geometry, paint and colour types are declared in headers that are not
    among the sources; [DrawContext.cpp] only passes their values along.  They
    are parameters of the development. *)

Record SkISize : Type := { fWidth : Z; fHeight : Z }.
Record SkIRect : Type := { fLeft : Z; fTop : Z; fRight : Z; fBottom : Z }.

Class Types : Type := {
  TextureProxy : Type;
  dimensions : TextureProxy -> SkISize;
  SkColorSpace : Type;
  SkColorType : Type;
  SkAlphaType : Type;
  Transform : Type;
  Shape : Type;
  StrokeParams : Type;
  PaintParams : Type;
  DrawOrder : Type;
  BoundsManager : Type
}.

Section Model.
Context {types : Types}.

(** Modelled from the spec: [SkImageInfo::Make] ([include/core/SkImageInfo.h])
    is not among the sources.  An image description combines pixel dimensions
    with a colour type, an alpha type and a colour space. *)
Record SkImageInfo : Type := {
  fDimensions : SkISize;
  fColorType : SkColorType;
  fAlphaType : SkAlphaType;
  fColorSpace : sk_sp SkColorSpace
}.

Definition SkImageInfo_Make (dims : SkISize) (ct : SkColorType)
    (at_ : SkAlphaType) (cs : sk_sp SkColorSpace) : SkImageInfo :=
  {| fDimensions := dims; fColorType := ct; fAlphaType := at_;
     fColorSpace := cs |}.

(** *** DrawList *)

(** One recorded draw operation: which of the three recording calls made it,
    and the arguments it was given. *)
Inductive Draw : Type :=
| StencilAndFillPath (localToDevice : Transform) (shape : Shape)
    (scissor : SkIRect) (order : DrawOrder) (paint : ptr PaintParams)
| FillConvexPath (localToDevice : Transform) (shape : Shape)
    (scissor : SkIRect) (order : DrawOrder) (paint : ptr PaintParams)
| StrokePath (localToDevice : Transform) (shape : Shape)
    (stroke : StrokeParams) (scissor : SkIRect) (order : DrawOrder)
    (paint : ptr PaintParams).

(** Modelled from the spec: [DrawList] ([experimental/graphite/src/DrawList.h])
    is not among the sources.  It is a mutable, append-only buffer of recorded
    draw operations that reports a count of them; a newly made one is empty.
    [address] is the rank of the [make_unique] call that allocated it. *)
Record DrawList : Type := {
  address : nat;
  fDraws : list Draw
}.

(** Modelled from the spec: [DrawList::count], the number of recorded
    operations. *)
Definition DrawList_count (l : DrawList) : nat := length (fDraws l).

(** Modelled from the spec: the three append methods of [DrawList], each
    recording one operation after those already there. *)
Definition DrawList_append (d : Draw) (l : DrawList) : DrawList :=
  {| address := address l; fDraws := fDraws l ++ [d] |}.

Definition DrawList_stencilAndFillPath (localToDevice : Transform)
    (shape : Shape) (scissor : SkIRect) (order : DrawOrder)
    (paint : ptr PaintParams) : DrawList -> DrawList :=
  DrawList_append (StencilAndFillPath localToDevice shape scissor order paint).

Definition DrawList_fillConvexPath (localToDevice : Transform)
    (shape : Shape) (scissor : SkIRect) (order : DrawOrder)
    (paint : ptr PaintParams) : DrawList -> DrawList :=
  DrawList_append (FillConvexPath localToDevice shape scissor order paint).

Definition DrawList_strokePath (localToDevice : Transform) (shape : Shape)
    (stroke : StrokeParams) (scissor : SkIRect) (order : DrawOrder)
    (paint : ptr PaintParams) : DrawList -> DrawList :=
  DrawList_append (StrokePath localToDevice shape stroke scissor order paint).

(** [std::make_unique<DrawList>()]: a new, empty draw list at the next
    address. *)
Definition make_unique_DrawList : M (unique_ptr DrawList) :=
  fun h => Returns (Some {| address := h; fDraws := [] |}, S h).

(** *** The pass and task factories

    [DrawPass::Make] and [RenderPassTask::Make] are defined in files that are
    not among the sources.  [DrawContext.cpp] only calls them and stores or
    returns what they give back, so they are parameters: nothing is assumed
    about the pass built from a draw list, nor about the task built from a
    sequence of passes (either may even be null). *)
Class Factories : Type := {
  DrawPass : Type;
  DrawPass_Make :
    unique_ptr DrawList -> sk_sp TextureProxy -> ptr BoundsManager ->
    unique_ptr DrawPass;
  Task : Type;
  RenderPassTask_Make : list (unique_ptr DrawPass) -> sk_sp Task
}.

Context {factories : Factories}.

(** *** DrawContext *)

Record DrawContext : Type := {
  fTarget : sk_sp TextureProxy;
  fImageInfo : SkImageInfo;
  fPendingDraws : unique_ptr DrawList;
  fDrawPasses : list (unique_ptr DrawPass)
}.

Definition set_fPendingDraws (p : unique_ptr DrawList) (this : DrawContext)
  : DrawContext :=
  {| fTarget := fTarget this; fImageInfo := fImageInfo this;
     fPendingDraws := p; fDrawPasses := fDrawPasses this |}.

Definition set_fDrawPasses (ps : list (unique_ptr DrawPass))
    (this : DrawContext) : DrawContext :=
  {| fTarget := fTarget this; fImageInfo := fImageInfo this;
     fPendingDraws := fPendingDraws this; fDrawPasses := ps |}.

(** [DrawContext::DrawContext(sk_sp<TextureProxy> target, const SkImageInfo& ii)];
    [fDrawPasses] is default-constructed, hence empty. *)
Definition DrawContext_ctor (target : sk_sp TextureProxy) (ii : SkImageInfo)
  : M DrawContext :=
  pending <- make_unique_DrawList ;;
  ret {| fTarget := target; fImageInfo := ii;
         fPendingDraws := pending; fDrawPasses := [] |}.

(** [DrawContext::Make] *)
Definition Make (target : sk_sp TextureProxy) (colorSpace : sk_sp SkColorSpace)
    (colorType : SkColorType) (alphaType : SkAlphaType)
  : M (sk_sp DrawContext) :=
  match target with
  | None => ret nullptr
  | Some t =>
      let imageInfo :=
        SkImageInfo_Make (dimensions t) colorType alphaType colorSpace in
      this <- DrawContext_ctor target imageInfo ;;
      ret (Some this)
  end.

(** [DrawContext::~DrawContext] *)
Definition DrawContext_dtor (this : DrawContext) : M unit :=
  pending <- deref (fPendingDraws this) ;;
  SkASSERT (DrawList_count pending =? 0) ;;
  SkASSERT (match fDrawPasses this with [] => true | _ => false end) ;;
  ret tt.

(** [fPendingDraws->method(...)]: a call on the pending draw list, which is
    mutated in place. *)
Definition on_pending (method : DrawList -> DrawList) (this : DrawContext)
  : M DrawContext :=
  pending <- deref (fPendingDraws this) ;;
  ret (set_fPendingDraws (Some (method pending)) this).

(** [DrawContext::stencilAndFillPath] *)
Definition stencilAndFillPath (localToDevice : Transform) (shape : Shape)
    (scissor : SkIRect) (order : DrawOrder) (paint : ptr PaintParams)
    (this : DrawContext) : M DrawContext :=
  on_pending
    (DrawList_stencilAndFillPath localToDevice shape scissor order paint) this.

(** [DrawContext::fillConvexPath] *)
Definition fillConvexPath (localToDevice : Transform) (shape : Shape)
    (scissor : SkIRect) (order : DrawOrder) (paint : ptr PaintParams)
    (this : DrawContext) : M DrawContext :=
  on_pending
    (DrawList_fillConvexPath localToDevice shape scissor order paint) this.

(** [DrawContext::strokePath] *)
Definition strokePath (localToDevice : Transform) (shape : Shape)
    (stroke : StrokeParams) (scissor : SkIRect) (order : DrawOrder)
    (paint : ptr PaintParams) (this : DrawContext) : M DrawContext :=
  on_pending
    (DrawList_strokePath localToDevice shape stroke scissor order paint) this.

(** [DrawContext::snapDrawPass] *)
Definition snapDrawPass (occlusionCuller : ptr BoundsManager)
    (this : DrawContext) : M DrawContext :=
  pending <- deref (fPendingDraws this) ;;
  if DrawList_count pending =? 0 then ret this
  else
    (* std::move(fPendingDraws): the argument takes the list, the member is
       left null until it is assigned again two lines below *)
    let moved := fPendingDraws this in
    let this := set_fPendingDraws nullptr this in
    let pass := DrawPass_Make moved (fTarget this) occlusionCuller in
    let this := set_fDrawPasses (fDrawPasses this ++ [pass]) this in
    fresh <- make_unique_DrawList ;;
    ret (set_fPendingDraws fresh this).

(** [DrawContext::snapRenderPassTask] *)
Definition snapRenderPassTask (occlusionCuller : ptr BoundsManager)
    (this : DrawContext) : M (sk_sp Task * DrawContext) :=
  this <- snapDrawPass occlusionCuller this ;;
  match fDrawPasses this with
  | [] => ret (nullptr, this)
  | _ =>
      (* std::move(fDrawPasses): the argument takes the vector, the member is
         left empty *)
      let moved := fDrawPasses this in
      let this := set_fDrawPasses [] this in
      ret (RenderPassTask_Make moved, this)
  end.

(** *** Sequences of calls *)

(** A recording call is named by the draw it asks for. *)
Definition recording (call : Draw) (this : DrawContext) : M DrawContext :=
  match call with
  | StencilAndFillPath localToDevice shape scissor order paint =>
      stencilAndFillPath localToDevice shape scissor order paint this
  | FillConvexPath localToDevice shape scissor order paint =>
      fillConvexPath localToDevice shape scissor order paint this
  | StrokePath localToDevice shape stroke scissor order paint =>
      strokePath localToDevice shape stroke scissor order paint this
  end.

Fixpoint recordings (calls : list Draw) (this : DrawContext) : M DrawContext :=
  match calls with
  | [] => ret this
  | call :: rest => this <- recording call this ;; recordings rest this
  end.

(** The calls that mutate a live draw context. *)
Inductive Call : Type :=
| CallRecording (call : Draw)
| CallSnapDrawPass (occlusionCuller : ptr BoundsManager)
| CallSnapRenderPassTask (occlusionCuller : ptr BoundsManager).

Definition perform (c : Call) (this : DrawContext) : M DrawContext :=
  match c with
  | CallRecording call => recording call this
  | CallSnapDrawPass oc => snapDrawPass oc this
  | CallSnapRenderPassTask oc =>
      r <- snapRenderPassTask oc this ;; ret (snd r)
  end.

Fixpoint perform_all (cs : list Call) (this : DrawContext) : M DrawContext :=
  match cs with
  | [] => ret this
  | c :: rest => this <- perform c this ;; perform_all rest this
  end.

(** Record [first], snap a pass, record [second], snap the task. *)
Definition two_batches (first : list Draw) (oc1 : ptr BoundsManager)
    (second : list Draw) (oc2 : ptr BoundsManager) (this : DrawContext)
  : M (sk_sp Task * DrawContext) :=
  this <- recordings first this ;;
  this <- snapDrawPass oc1 this ;;
  this <- recordings second this ;;
  snapRenderPassTask oc2 this.

(** *** Well-formed draw contexts

    Every draw context handed out by [Make] holds a pending draw list, and
    that list was allocated before now.  No call breaks this. *)
Definition well_formed (this : DrawContext) (h : Heap) : Prop :=
  match fPendingDraws this with
  | Some pending => address pending < h
  | None => False
  end.

(** The count of the pending draw list, as [fPendingDraws->count()] reads
    it; a null list has no count. *)
Definition pending_count (this : DrawContext) : option nat :=
  option_map DrawList_count (fPendingDraws this).

(** *** Longer call sequences *)

(** The draws that the recording calls of a sequence ask for, in call
    order. *)
Fixpoint recorded (cs : list Call) : list Draw :=
  match cs with
  | [] => []
  | CallRecording call :: rest => call :: recorded rest
  | _ :: rest => recorded rest
  end.

(** Whether a sequence has no [snapRenderPassTask] call in it. *)
Definition keeps_passes (cs : list Call) : bool :=
  forallb (fun c => match c with
                    | CallSnapRenderPassTask _ => false
                    | _ => true
                    end) cs.

(** A batch: the draws to record, and the culler given to the
    [snapDrawPass] call that follows them. *)
Definition Batch : Type := (list Draw * ptr BoundsManager)%type.

Fixpoint batches (bs : list Batch) (this : DrawContext) : M DrawContext :=
  match bs with
  | [] => ret this
  | (calls, oc) :: rest =>
      this <- recordings calls this ;;
      this <- snapDrawPass oc this ;;
      batches rest this
  end.

(** What [DrawPass::Make] gives for a batch recorded into the draw list at a
    given address. *)
Definition pass_of (target : sk_sp TextureProxy) (x : nat * Batch)
  : unique_ptr DrawPass :=
  DrawPass_Make (Some {| address := fst x; fDraws := fst (snd x) |})
    target (snd (snd x)).

(** What [DrawPass::Make] gives for a draw list handed over with a culler. *)
Definition pass_from (target : sk_sp TextureProxy)
    (x : DrawList * ptr BoundsManager) : unique_ptr DrawPass :=
  DrawPass_Make (Some (fst x)) target (snd x).

(** A context from [Make], used through a sequence of calls, harvested with
    [snapRenderPassTask] and destroyed. *)
Definition lifetime (target : sk_sp TextureProxy)
    (colorSpace : sk_sp SkColorSpace) (colorType : SkColorType)
    (alphaType : SkAlphaType) (cs : list Call) (oc : ptr BoundsManager)
  : M (sk_sp Task) :=
  made <- Make target colorSpace colorType alphaType ;;
  this <- deref made ;;
  this <- perform_all cs this ;;
  r <- snapRenderPassTask oc this ;;
  DrawContext_dtor (snd r) ;;
  ret (fst r).

End Model.

(** *** A concrete instance

    Targets are given by their dimensions, the other collaborator values by
    numbers; a pass remembers the arguments it was made from and a task the
    passes it was made from. *)
Module Sample.

#[export] Instance types : Types := {|
  TextureProxy := SkISize;
  dimensions := fun t => t;
  SkColorSpace := nat;
  SkColorType := nat;
  SkAlphaType := nat;
  Transform := nat;
  Shape := nat;
  StrokeParams := nat;
  PaintParams := nat;
  DrawOrder := nat;
  BoundsManager := nat
|}.

Record RecordedPass : Type := {
  pass_draws : unique_ptr DrawList;
  pass_target : sk_sp SkISize;
  pass_culler : ptr nat
}.

#[export] Instance factories : Factories := {|
  DrawPass := RecordedPass;
  DrawPass_Make := fun draws target oc =>
    Some {| pass_draws := draws; pass_target := target; pass_culler := oc |};
  Task := list (unique_ptr RecordedPass);
  RenderPassTask_Make := fun passes => Some passes
|}.

Definition target256 : SkISize := {| fWidth := 256; fHeight := 256 |}.
Definition everything : SkIRect :=
  {| fLeft := 0; fTop := 0; fRight := 256; fBottom := 256 |}.

Definition stroke1 : Draw := StrokePath 1 2 3 everything 4 nullptr.
Definition fill1 : Draw := FillConvexPath 5 6 everything 7 (Some 8).
Definition stencil1 : Draw := StencilAndFillPath 9 10 everything 11 nullptr.

Definition culler : ptr BoundsManager := Some 1.

(** A context as [Make] builds it when three draw lists exist already. *)
Definition fresh_context : DrawContext :=
  {| fTarget := Some target256;
     fImageInfo := SkImageInfo_Make target256 0 1 nullptr;
     fPendingDraws := Some {| address := 3; fDraws := [] |};
     fDrawPasses := [] |}.

(** A context with one pass snapped and one draw pending. *)
Definition busy_context : DrawContext :=
  {| fTarget := Some target256;
     fImageInfo := SkImageInfo_Make target256 0 1 nullptr;
     fPendingDraws := Some {| address := 4; fDraws := [fill1] |};
     fDrawPasses :=
       [DrawPass_Make (Some {| address := 3; fDraws := [stroke1] |})
          (Some target256) nullptr] |}.

(** A sequence of recording and [snapDrawPass] calls, and three batches. *)
Definition sample_calls : list Call :=
  [CallRecording stroke1; CallSnapDrawPass culler; CallSnapDrawPass nullptr;
   CallRecording stencil1].

Definition sample_batches : list Batch :=
  [([stroke1], nullptr); ([fill1; stencil1], culler); ([stencil1], nullptr)].

End Sample.
End skgpu.

Module dsl.

(** ** The runtime-shader epilogue

    [EndRuntimeShader] is glue: every statement of it is a call into the DSL
    core, the thread context or [SkRuntimeEffect], none of which is among the
    sources.  The function is therefore embedded as the sequence of calls it
    makes, each continuing with whatever the callee answers; running it
    against a handler for those calls yields its result and the calls made. *)

(** The types of the values passed along, and [Position{}]. *)
Class Types : Type := {
  Program : Type;
  Options : Type;
  ErrorReporter : Type;
  SkRuntimeEffect : Type;
  Position : Type;
  no_position : Position
}.

Section Model.
Context {types : Types}.

Inductive Request : Type -> Type :=
| ReleaseProgram : Request (unique_ptr Program)
| ReportErrors (pos : Position) : Request unit
| GetErrorReporter : Request ErrorReporter
| MakeForShader (program : unique_ptr Program) (options : Options)
    (errors : ErrorReporter) : Request (sk_sp SkRuntimeEffect)
| End : Request unit.

Inductive Proc (A : Type) : Type :=
| Done (a : A)
| Invoke (X : Type) (r : Request X) (k : X -> Proc A).
Arguments Done {A} a.
Arguments Invoke {A X} r k.

Fixpoint then_ {A B} (p : Proc A) (k : A -> Proc B) : Proc B :=
  match p with
  | Done a => k a
  | Invoke r k' => Invoke r (fun x => then_ (k' x) k)
  end.

Definition call {X} (r : Request X) : Proc X := Invoke r (fun x => Done x).

Declare Scope dsl_scope.
Notation "x <- p ;; k" := (then_ p (fun x => k))
  (at level 61, p at next level, right associativity) : dsl_scope.
Notation "p ;; k" := (then_ p (fun _ => k))
  (at level 61, right associativity) : dsl_scope.
Local Open Scope dsl_scope.

(** [EndRuntimeShader] *)
Definition EndRuntimeShader (options : Options)
  : Proc (sk_sp SkRuntimeEffect) :=
  program <- call ReleaseProgram ;;
  call (ReportErrors no_position) ;;
  let result : sk_sp SkRuntimeEffect := nullptr in
  result <- match program with
            | Some _ =>
                errors <- call GetErrorReporter ;;
                call (MakeForShader program options errors)
            | None => Done result
            end ;;
  call End ;;
  Done result.

(** *** Running against the callees

    The callees share the thread-local DSL state [S]; a handler says, for
    each request and state, what is answered and what the state becomes. *)
Definition Handler (S : Type) : Type := forall X, Request X -> S -> X * S.

(** A request that was made, whatever its answer type. *)
Definition Made : Type := { X : Type & Request X }.
Definition made {X} (r : Request X) : Made := existT _ X r.

Definition is_End (m : Made) : bool :=
  match projT2 m with
  | End => true
  | _ => false
  end.

Fixpoint exec {S A} (handle : Handler S) (p : Proc A) (s : S)
  : list Made * A * S :=
  match p with
  | Done a => ([], a, s)
  | Invoke r k =>
      let '(x, s') := handle _ r s in
      let '(log, a, s'') := exec handle (k x) s' in
      (made r :: log, a, s'')
  end.

End Model.

(** ** The runtime-shader prologue

    [StartRuntimeShader] calls [Start] and then adjusts two fields of the
    program settings that the thread's [SkSL::Context] points to.  The
    compiler, the program kinds, [kDefaultInlineThreshold] and the structs
    are declared in headers that are not among the sources: the constants are
    parameters, and of each struct only the fields on the access path
    [Context().fConfig->fSettings] are named, what else it holds being kept
    together in one untouched field. *)
Class Prologue : Type := {
  Compiler : Type;
  ProgramKind : Type;
  kRuntimeShader : ProgramKind;
  kDefaultInlineThreshold : Z;
  OtherSettings : Type;
  OtherConfig : Type;
  OtherContext : Type
}.

Section PrologueModel.
Context {prologue : Prologue}.

Record ProgramSettings : Type := {
  fInlineThreshold : Z;
  fAllowNarrowingConversions : bool;
  fOtherSettings : OtherSettings
}.

Record ProgramConfig : Type := {
  fSettings : ProgramSettings;
  fOtherConfig : OtherConfig
}.

(** What [ThreadContext::Context()] refers to. *)
Record SkSLContext : Type := {
  fConfig : ptr ProgramConfig;
  fOtherContext : OtherContext
}.

(** [Start] is defined in [DSLCore.cpp], not among the sources; it is a
    parameter, free to set up the thread's context as it likes. *)
Class DSLCore : Type := {
  Start : ptr Compiler -> ProgramKind -> SkSLContext -> SkSLContext
}.

Context {core : DSLCore}.

(** Code running on the thread's context. *)
Definition D (A : Type) : Type := SkSLContext -> Outcome (A * SkSLContext).

Definition unit_ {A} (a : A) : D A := fun c => Returns (a, c).

Definition after {A B} (m : D A) (k : A -> D B) : D B :=
  fun c => match m c with
           | Returns (a, c') => k a c'
           | Stops f => Stops f
           end.

Declare Scope thread_scope.
Notation "x <- m ;; k" := (after m (fun x => k))
  (at level 61, m at next level, right associativity) : thread_scope.
Notation "m ;; k" := (after m (fun _ => k))
  (at level 61, right associativity) : thread_scope.
Local Open Scope thread_scope.

(** Reading through the reference
    [ThreadContext::Context().fConfig->fSettings]. *)
Definition read_settings : D ProgramSettings :=
  fun c => match fConfig c with
           | Some config => Returns (fSettings config, c)
           | None => Stops NullDereference
           end.

(** Writing through that reference. *)
Definition write_settings (settings : ProgramSettings) : D unit :=
  fun c => match fConfig c with
           | Some config =>
               Returns (tt, {| fConfig :=
                                 Some {| fSettings := settings;
                                         fOtherConfig := fOtherConfig config |};
                               fOtherContext := fOtherContext c |})
           | None => Stops NullDereference
           end.

(** [SkASSERT] in its development-build reading, as for [skgpu]. *)
Definition SkASSERT (cond : bool) : D unit :=
  fun c => if cond then Returns (tt, c) else Stops AssertionFailure.

(** [StartRuntimeShader] *)
Definition StartRuntimeShader (compiler : ptr Compiler) : D unit :=
  (fun c => Returns (tt, Start compiler kRuntimeShader c)) ;;
  settings <- read_settings ;;
  SkASSERT (fInlineThreshold settings =? kDefaultInlineThreshold)%Z ;;
  write_settings
    {| fInlineThreshold := 0;
       fAllowNarrowingConversions := fAllowNarrowingConversions settings;
       fOtherSettings := fOtherSettings settings |} ;;
  settings <- read_settings ;;
  SkASSERT (negb (fAllowNarrowingConversions settings)) ;;
  write_settings
    {| fInlineThreshold := fInlineThreshold settings;
       fAllowNarrowingConversions := true;
       fOtherSettings := fOtherSettings settings |}.

End PrologueModel.

(** ** What a log of requests says about [MakeForShader] *)

Section Logs.
Context {types : Types}.

(** The program and options of a [MakeForShader] request. *)
Definition shader_request (m : Made) : option (unique_ptr Program * Options) :=
  match projT2 m with
  | MakeForShader program options _ => Some (program, options)
  | _ => None
  end.

Fixpoint shader_requests (log : list Made)
  : list (unique_ptr Program * Options) :=
  match log with
  | [] => []
  | m :: rest =>
      match shader_request m with
      | Some x => x :: shader_requests rest
      | None => shader_requests rest
      end
  end.

Definition is_ReleaseProgram (m : Made) : bool :=
  match projT2 m with
  | ReleaseProgram => true
  | _ => false
  end.

(** The position of a [ReportErrors] request. *)
Definition reported (m : Made) : option Position :=
  match projT2 m with
  | ReportErrors pos => Some pos
  | _ => None
  end.

End Logs.

(** *** A concrete handler

    Programs, options, reporters and effects are numbers; the state is the
    program waiting to be released, if any. *)
Module Sample.

#[export] Instance types : Types := {|
  Program := nat;
  Options := nat;
  ErrorReporter := nat;
  SkRuntimeEffect := nat;
  Position := nat;
  no_position := 0
|}.

Definition handle : Handler (option nat) :=
  fun X r =>
    match r in Request X return option nat -> X * option nat with
    | ReleaseProgram => fun s => (s, None)
    | ReportErrors _ => fun s => (tt, s)
    | GetErrorReporter => fun s => (7, s)
    | MakeForShader program options errors =>
        fun s => (option_map (fun p => p + options + errors) program, s)
    | End => fun s => (tt, None)
    end.

(** A concrete prologue: the default inline threshold is 50; the rest of the
    context remembers the kind last started. *)
#[export] Instance prologue : Prologue := {|
  Compiler := nat;
  ProgramKind := nat;
  kRuntimeShader := 2;
  kDefaultInlineThreshold := 50;
  OtherSettings := nat;
  OtherConfig := nat;
  OtherContext := nat
|}.

Definition default_settings : ProgramSettings :=
  {| fInlineThreshold := 50; fAllowNarrowingConversions := false;
     fOtherSettings := 0 |}.

(** A [Start] that installs a new configuration with default settings. *)
Definition starting : DSLCore := {|
  Start := fun _ kind _ =>
    {| fConfig := Some {| fSettings := default_settings; fOtherConfig := 0 |};
       fOtherContext := kind |}
|}.

(** A [Start] that leaves the context as it finds it. *)
Definition keeping : DSLCore := {| Start := fun _ _ c => c |}.

Definition idle : SkSLContext := {| fConfig := nullptr; fOtherContext := 0 |}.

End Sample.
End dsl.

(** * Properties of [skgpu::DrawContext] *)

Module DrawContextSpec.
Import skgpu.
Local Open Scope cpp_scope.
Unset Implicit Arguments.

Section Properties.
Context {types : Types} {factories : Factories}.

Implicit Types (this : DrawContext) (h : Heap) (pending : DrawList)
  (oc : ptr BoundsManager) (calls : list Draw).

(** ** Equations of the calls on a context that holds a draw list *)

Lemma bind_returns {A B} (m : M A) (k : A -> M B) h a h' :
  m h = Returns (a, h') -> bind m k h = k a h'.
Proof. unfold bind. intros ->. reflexivity. Qed.

Lemma set_fPendingDraws_same this pending :
  fPendingDraws this = Some pending ->
  set_fPendingDraws (Some pending) this = this.
Proof. destruct this; simpl; intros ->; reflexivity. Qed.

Lemma recording_appends call this :
  recording call this = on_pending (DrawList_append call) this.
Proof. destruct call; reflexivity. Qed.

Lemma recording_returns call this h pending :
  fPendingDraws this = Some pending ->
  recording call this h =
  Returns (set_fPendingDraws (Some (DrawList_append call pending)) this, h).
Proof.
  intros Hp. rewrite recording_appends.
  unfold on_pending. rewrite Hp. reflexivity.
Qed.

Lemma recordings_returns calls : forall this h pending,
  fPendingDraws this = Some pending ->
  recordings calls this h =
  Returns (set_fPendingDraws
             (Some {| address := address pending;
                      fDraws := fDraws pending ++ calls |}) this, h).
Proof.
  induction calls as [|call rest IH]; intros this h pending Hp; simpl.
  - rewrite app_nil_r. destruct pending; simpl.
    rewrite (set_fPendingDraws_same _ _ Hp). reflexivity.
  - erewrite bind_returns by (apply recording_returns; exact Hp).
    erewrite IH by reflexivity.
    simpl. rewrite <- app_assoc. reflexivity.
Qed.

Lemma snapDrawPass_empty oc this h pending :
  fPendingDraws this = Some pending ->
  DrawList_count pending = 0 ->
  snapDrawPass oc this h = Returns (this, h).
Proof.
  intros Hp Hc. unfold snapDrawPass. rewrite Hp. simpl.
  unfold bind, ret. rewrite Hc. reflexivity.
Qed.

Lemma snapDrawPass_nonempty oc this h pending :
  fPendingDraws this = Some pending ->
  DrawList_count pending <> 0 ->
  snapDrawPass oc this h =
  Returns ({| fTarget := fTarget this;
              fImageInfo := fImageInfo this;
              fPendingDraws := Some {| address := h; fDraws := [] |};
              fDrawPasses :=
                fDrawPasses this ++
                [DrawPass_Make (Some pending) (fTarget this) oc] |}, S h).
Proof.
  intros Hp Hc. unfold snapDrawPass. rewrite Hp. simpl.
  unfold bind, ret. apply Nat.eqb_neq in Hc. rewrite Hc. reflexivity.
Qed.

Lemma snapRenderPassTask_after_snap oc this h this1 h1 :
  snapDrawPass oc this h = Returns (this1, h1) ->
  snapRenderPassTask oc this h =
  match fDrawPasses this1 with
  | [] => Returns ((nullptr, this1), h1)
  | _ => Returns ((RenderPassTask_Make (fDrawPasses this1),
                   set_fDrawPasses [] this1), h1)
  end.
Proof.
  intros Hs. unfold snapRenderPassTask.
  erewrite bind_returns by exact Hs.
  destruct (fDrawPasses this1); reflexivity.
Qed.

Lemma count_zero_iff_no_draws pending :
  DrawList_count pending = 0 <-> fDraws pending = [].
Proof. unfold DrawList_count. apply length_zero_iff_nil. Qed.

Lemma app_singleton_not_nil {A} (l : list A) (x : A) : l ++ [x] <> [].
Proof. destruct l; discriminate. Qed.

(** ** Well-formedness is established by [Make] and kept by every call *)

Lemma well_formed_pending this h :
  well_formed this h <->
  exists pending, fPendingDraws this = Some pending /\ address pending < h.
Proof.
  unfold well_formed. destruct (fPendingDraws this) as [pending|].
  - split.
    + intros Hlt. exists pending. split; [reflexivity | exact Hlt].
    + intros (p & Hp & Hlt). injection Hp as ->. exact Hlt.
  - split; [intros [] | intros (p & Hp & _); discriminate].
Qed.

Lemma Make_well_formed target colorSpace colorType alphaType h this h' :
  Make target colorSpace colorType alphaType h = Returns (Some this, h') ->
  well_formed this h' /\ DrawContext_dtor this h' = Returns (tt, h').
Proof.
  destruct target as [t|]; simpl; [|discriminate].
  unfold DrawContext_ctor, bind, ret, make_unique_DrawList.
  intros [= <- <-]. split; [unfold well_formed; simpl; lia | reflexivity].
Qed.

Lemma perform_keeps c this h :
  well_formed this h ->
  exists this' h',
    perform c this h = Returns (this', h') /\ well_formed this' h' /\
    fTarget this' = fTarget this /\ fImageInfo this' = fImageInfo this.
Proof.
  intros Hwf. apply well_formed_pending in Hwf as (pending & Hp & Hlt).
  assert (Hsnap : forall oc, exists this1 h1,
             snapDrawPass oc this h = Returns (this1, h1) /\
             well_formed this1 h1 /\ fTarget this1 = fTarget this /\
             fImageInfo this1 = fImageInfo this).
  { intros oc. destruct (Nat.eq_dec (DrawList_count pending) 0) as [Hc|Hc].
    - exists this, h. rewrite (snapDrawPass_empty oc _ h _ Hp Hc).
      repeat split. apply well_formed_pending. eauto.
    - eexists _, _. rewrite (snapDrawPass_nonempty oc _ h _ Hp Hc).
      repeat split. unfold well_formed; simpl; lia. }
  destruct c as [call|oc|oc]; simpl.
  - eexists _, _. rewrite (recording_returns call _ h _ Hp).
    repeat split. unfold well_formed; simpl. exact Hlt.
  - apply Hsnap.
  - destruct (Hsnap oc) as (this1 & h1 & Hs & Hwf1 & Ht & Hi).
    unfold bind. rewrite (snapRenderPassTask_after_snap _ _ _ _ _ Hs).
    destruct (fDrawPasses this1); simpl; eexists _, _;
      (split; [reflexivity|]); repeat split; assumption.
Qed.

(** ** The stated properties *)

(** C3: [Make] returns no instance exactly when the target is null.  For a
    non-null target it returns, whatever the colour space, colour type and
    alpha type, a context bound to that target whose pending draw list is
    newly allocated and empty, whose pass sequence is empty, and whose image
    description is made of the target's dimensions and the three supplied
    colour attributes. *)
Theorem C3_Make_rejects_only_null_target
    (target : sk_sp TextureProxy) (colorSpace : sk_sp SkColorSpace)
    (colorType : SkColorType) (alphaType : SkAlphaType) h :
  ((exists h', Make target colorSpace colorType alphaType h
               = Returns (nullptr, h'))
   <-> target = nullptr) /\
  match target with
  | None =>
      Make target colorSpace colorType alphaType h = Returns (nullptr, h)
  | Some t =>
      Make target colorSpace colorType alphaType h =
      Returns (Some {| fTarget := Some t;
                       fImageInfo :=
                         {| fDimensions := dimensions t;
                            fColorType := colorType;
                            fAlphaType := alphaType;
                            fColorSpace := colorSpace |};
                       fPendingDraws := Some {| address := h; fDraws := [] |};
                       fDrawPasses := [] |}, S h)
  end.
Proof.
  destruct target as [t|]; simpl; split; try reflexivity.
  - split; [intros (h' & Hm); discriminate Hm | discriminate].
  - split; [reflexivity | intros _; exists h; reflexivity].
Qed.

(** C4: on a context holding a draw list, any sequence of recording calls
    returns without stopping; the pending draw list (the same object) then
    holds its former draws followed by one draw per call, in call order, so
    its count has grown by the number of calls; the pass sequence, the target
    and the heap are as before. *)
Theorem C4_recordings_accumulate calls this h pending :
  fPendingDraws this = Some pending ->
  exists this',
    recordings calls this h = Returns (this', h) /\
    fPendingDraws this' =
      Some {| address := address pending;
              fDraws := fDraws pending ++ calls |} /\
    pending_count this' = Some (DrawList_count pending + length calls) /\
    fDrawPasses this' = fDrawPasses this.
Proof.
  intros Hp. eexists. rewrite (recordings_returns calls _ h _ Hp).
  split; [reflexivity|]. unfold pending_count, DrawList_count; simpl.
  rewrite length_app. repeat split.
Qed.

(** C2: on a well-formed context [snapDrawPass] returns; afterwards the
    pending draw list has count zero, and the pass sequence is the former
    one, kept as it was, followed by at most one new entry.  When the pending
    list was empty nothing is added, and the pending list and the heap are as
    before.  When it was not empty, the one entry added at the end is the pass
    built from it, the target and the culler, and the pending list is a newly
    allocated empty one, at an address the old list did not have. *)
Theorem C2_snapDrawPass_leaves_pending_empty oc this h :
  well_formed this h ->
  exists this' h' added,
    snapDrawPass oc this h = Returns (this', h') /\
    pending_count this' = Some 0 /\
    fDrawPasses this' = fDrawPasses this ++ added /\
    length added <= 1 /\
    length (fDrawPasses this') <= S (length (fDrawPasses this)) /\
    (pending_count this = Some 0 ->
     added = [] /\
     fPendingDraws this' = fPendingDraws this /\
     h' = h) /\
    (pending_count this <> Some 0 ->
     added = [DrawPass_Make (fPendingDraws this) (fTarget this) oc] /\
     fPendingDraws this' = Some {| address := h; fDraws := [] |} /\
     h' = S h /\
     option_map address (fPendingDraws this) <> Some h).
Proof.
  intros Hwf. apply well_formed_pending in Hwf as (pending & Hp & Hlt).
  destruct (Nat.eq_dec (DrawList_count pending) 0) as [Hc|Hc].
  - exists this, h, []. rewrite (snapDrawPass_empty oc _ h _ Hp Hc).
    unfold pending_count. rewrite Hp. simpl. rewrite Hc, app_nil_r.
    split; [reflexivity|]. split; [reflexivity|]. split; [reflexivity|].
    split; [lia|]. split; [lia|]. split.
    + intros _. repeat split.
    + intros Hne. contradiction Hne. reflexivity.
  - exists {| fTarget := fTarget this;
              fImageInfo := fImageInfo this;
              fPendingDraws := Some {| address := h; fDraws := [] |};
              fDrawPasses :=
                fDrawPasses this ++
                [DrawPass_Make (Some pending) (fTarget this) oc] |},
      (S h), [DrawPass_Make (Some pending) (fTarget this) oc].
    rewrite (snapDrawPass_nonempty oc _ h _ Hp Hc).
    split; [reflexivity|]. simpl. split; [reflexivity|].
    split; [reflexivity|]. split; [lia|].
    split; [rewrite length_app; simpl; lia|].
    unfold pending_count. rewrite Hp. simpl. split.
    + intros [= Hz]. contradiction.
    + intros _. repeat split. intros [= Heq]. lia.
Qed.

(** C7: on a context whose pending draw list has count zero, [snapDrawPass]
    returns leaving the context as it was (so nothing is appended to the pass
    sequence) and the heap as it was (so no draw list is allocated); and on
    any context holding a draw list, two [snapDrawPass] calls in a row end in
    the same context and heap as the first of them alone. *)
Theorem C7_snapDrawPass_noop_when_empty oc oc' this h pending :
  fPendingDraws this = Some pending ->
  (DrawList_count pending = 0 -> snapDrawPass oc this h = Returns (this, h)) /\
  (this1 <- snapDrawPass oc this ;; snapDrawPass oc' this1) h
  = snapDrawPass oc this h.
Proof.
  intros Hp. split; [apply snapDrawPass_empty; exact Hp|].
  destruct (Nat.eq_dec (DrawList_count pending) 0) as [Hc|Hc].
  - erewrite bind_returns by (eapply snapDrawPass_empty; eassumption).
    rewrite (snapDrawPass_empty oc _ h _ Hp Hc).
    exact (snapDrawPass_empty oc' _ h _ Hp Hc).
  - erewrite bind_returns by (eapply snapDrawPass_nonempty; eassumption).
    rewrite (snapDrawPass_nonempty oc _ h _ Hp Hc).
    eapply snapDrawPass_empty; reflexivity.
Qed.

(** C5: on a context whose pending draw list and pass sequence are both
    empty, [snapRenderPassTask] returns the null task and leaves the context
    and the heap exactly as they were. *)
Theorem C5_snapRenderPassTask_nothing_recorded oc this h pending :
  fPendingDraws this = Some pending ->
  fDraws pending = [] ->
  fDrawPasses this = [] ->
  snapRenderPassTask oc this h = Returns ((nullptr, this), h).
Proof.
  intros Hp Hd Hps.
  rewrite (snapRenderPassTask_after_snap oc this h this h).
  - rewrite Hps. reflexivity.
  - eapply snapDrawPass_empty; [exact Hp|].
    apply count_zero_iff_no_draws. exact Hd.
Qed.

(** What [snapRenderPassTask] returns and leaves behind, by cases on whether
    anything was pending and whether any pass had been snapped. *)
Lemma snapRenderPassTask_drains oc this h pending :
  fPendingDraws this = Some pending ->
  exists task this' h' pending',
    snapRenderPassTask oc this h = Returns ((task, this'), h') /\
    fPendingDraws this' = Some pending' /\
    fDraws pending' = [] /\
    fDrawPasses this' = [].
Proof.
  intros Hp.
  destruct (Nat.eq_dec (DrawList_count pending) 0) as [Hc|Hc].
  - rewrite (snapRenderPassTask_after_snap oc this h this h)
      by (eapply snapDrawPass_empty; eassumption).
    apply count_zero_iff_no_draws in Hc.
    destruct (fDrawPasses this) eqn:Hps.
    + exists nullptr, this, h, pending. auto.
    + eexists _, _, _, pending. split; [reflexivity|]. auto.
  - erewrite snapRenderPassTask_after_snap
      by (eapply snapDrawPass_nonempty; eassumption).
    simpl. destruct (fDrawPasses this ++ _) eqn:Hps.
    + exfalso. exact (app_singleton_not_nil _ _ Hps).
    + eexists _, _, _, _. split; [reflexivity|]. simpl. auto.
Qed.

(** C6: on every context holding a draw list, [snapRenderPassTask] returns,
    with a task or with null, and afterwards the pending draw list is empty
    and the pass sequence is empty. *)
Theorem C6_snapRenderPassTask_drains oc this h pending :
  fPendingDraws this = Some pending ->
  exists task this' h',
    snapRenderPassTask oc this h = Returns ((task, this'), h') /\
    pending_count this' = Some 0 /\
    fDrawPasses this' = [].
Proof.
  intros Hp.
  destruct (snapRenderPassTask_drains oc this h pending Hp)
    as (task & this' & h' & pending' & Hr & Hp' & Hd & Hps).
  exists task, this', h'. split; [exact Hr|]. split; [|exact Hps].
  unfold pending_count, DrawList_count. rewrite Hp'. simpl. rewrite Hd.
  reflexivity.
Qed.

(** C1: take a context whose pending draw list and pass sequence are empty;
    make N > 0 recording calls, call [snapDrawPass] once, make M > 0 more
    recording calls, then call [snapRenderPassTask].  That call returns what
    [RenderPassTask::Make] gives for a sequence of exactly two passes: first
    the pass made from the N earlier draws, then the pass made from the M
    later draws.  The whole pass sequence is handed over, in snapshot order,
    and the context is left with an empty pass sequence. *)
Theorem C1_two_batches_give_two_passes first oc1 second oc2 this h a :
  fPendingDraws this = Some {| address := a; fDraws := [] |} ->
  fDrawPasses this = [] ->
  0 < length first ->
  0 < length second ->
  let pass1 :=
    DrawPass_Make (Some {| address := a; fDraws := first |})
      (fTarget this) oc1 in
  let pass2 :=
    DrawPass_Make (Some {| address := h; fDraws := second |})
      (fTarget this) oc2 in
  length [pass1; pass2] = 2 /\
  two_batches first oc1 second oc2 this h =
  Returns ((RenderPassTask_Make [pass1; pass2],
            {| fTarget := fTarget this;
               fImageInfo := fImageInfo this;
               fPendingDraws := Some {| address := S h; fDraws := [] |};
               fDrawPasses := [] |}), S (S h)).
Proof.
  intros Hp Hps Hn Hm pass1 pass2. split; [reflexivity|].
  unfold two_batches.
  erewrite bind_returns by (eapply recordings_returns; exact Hp).
  erewrite bind_returns.
  2:{ eapply snapDrawPass_nonempty; [reflexivity|].
      unfold DrawList_count; simpl. lia. }
  erewrite bind_returns by (eapply recordings_returns; reflexivity).
  erewrite snapRenderPassTask_after_snap.
  2:{ eapply snapDrawPass_nonempty; [reflexivity|].
      unfold DrawList_count; simpl. lia. }
  simpl. rewrite Hps. reflexivity.
Qed.

(** C8: on a context holding a draw list, the destructor stops on a failed
    assertion as soon as the pending draw list has a non-zero count or the
    pass sequence is not empty; and on the context that a returning
    [snapRenderPassTask] leaves behind, it runs through both assertions and
    returns. *)
Theorem C8_dtor_asserts_drained this h pending :
  fPendingDraws this = Some pending ->
  (DrawList_count pending <> 0 \/ fDrawPasses this <> [] ->
   DrawContext_dtor this h = Stops AssertionFailure) /\
  (forall oc, exists task this' h',
     snapRenderPassTask oc this h = Returns ((task, this'), h') /\
     DrawContext_dtor this' h' = Returns (tt, h')).
Proof.
  intros Hp. split.
  - intros Hne. unfold DrawContext_dtor. rewrite Hp. simpl.
    unfold bind, ret, SkASSERT, stop.
    destruct (Nat.eqb_spec (DrawList_count pending) 0) as [Hc|Hc];
      [|reflexivity].
    destruct (fDrawPasses this); [|reflexivity].
    destruct Hne as [Hne|Hne]; contradiction.
  - intros oc.
    destruct (snapRenderPassTask_drains oc this h pending Hp)
      as (task & this' & h' & pending' & Hr & Hp' & Hd & Hps).
    exists task, this', h'. split; [exact Hr|].
    unfold DrawContext_dtor. rewrite Hp', Hps. simpl.
    unfold bind, ret, SkASSERT, DrawList_count. rewrite Hd. reflexivity.
Qed.

(** C9: on a well-formed context, any sequence of recording calls,
    [snapDrawPass] calls and [snapRenderPassTask] calls returns, and leaves
    [fTarget] and [fImageInfo] as they were. *)
Theorem C9_calls_keep_target_and_image_info (cs : list Call) :
  forall this h,
  well_formed this h ->
  exists this' h',
    perform_all cs this h = Returns (this', h') /\
    fTarget this' = fTarget this /\
    fImageInfo this' = fImageInfo this.
Proof.
  induction cs as [|c rest IH]; intros this h Hwf; simpl.
  - exists this, h. repeat split.
  - destruct (perform_keeps c this h Hwf) as (this1 & h1 & Hr & Hwf1 & Ht & Hi).
    destruct (IH this1 h1 Hwf1) as (this' & h' & Hr' & Ht' & Hi').
    exists this', h'. erewrite bind_returns by exact Hr.
    split; [exact Hr'|]. split; congruence.
Qed.

(** ** Further properties of the calls and how they compose *)

Lemma perform_all_keeps (cs : list Call) :
  forall this h,
  well_formed this h ->
  exists this' h',
    perform_all cs this h = Returns (this', h') /\ well_formed this' h'.
Proof.
  induction cs as [|c rest IH]; intros this h Hwf; simpl.
  - exists this, h. split; [reflexivity | exact Hwf].
  - destruct (perform_keeps c this h Hwf) as (this1 & h1 & Hr & Hwf1 & _).
    destruct (IH this1 h1 Hwf1) as (this' & h' & Hr' & Hwf').
    exists this', h'. erewrite bind_returns by exact Hr.
    split; assumption.
Qed.

Lemma snapRenderPassTask_nothing oc this h pending :
  fPendingDraws this = Some pending ->
  fDraws pending = [] ->
  fDrawPasses this = [] ->
  snapRenderPassTask oc this h = Returns ((nullptr, this), h).
Proof.
  intros Hp Hd Hps.
  rewrite (snapRenderPassTask_after_snap oc this h this h).
  - rewrite Hps. reflexivity.
  - eapply snapDrawPass_empty; [exact Hp|].
    apply count_zero_iff_no_draws. exact Hd.
Qed.

(** X1: when something is pending or some pass was snapped,
    [snapRenderPassTask] returns exactly what [RenderPassTask::Make] gives
    for the passes snapped so far, in order, followed, if draws are pending,
    by the pass made from them with this call's culler and the context's own
    target.  The pass sequence is left empty; a draw list is allocated only
    if draws were pending. *)
Theorem snapRenderPassTask_hands_over_all_passes oc this h pending :
  fPendingDraws this = Some pending ->
  DrawList_count pending <> 0 \/ fDrawPasses this <> [] ->
  snapRenderPassTask oc this h =
  if DrawList_count pending =? 0 then
    Returns ((RenderPassTask_Make (fDrawPasses this),
              set_fDrawPasses [] this), h)
  else
    Returns ((RenderPassTask_Make
                (fDrawPasses this ++
                 [DrawPass_Make (Some pending) (fTarget this) oc]),
              {| fTarget := fTarget this;
                 fImageInfo := fImageInfo this;
                 fPendingDraws := Some {| address := h; fDraws := [] |};
                 fDrawPasses := [] |}), S h).
Proof.
  intros Hp Hne.
  destruct (Nat.eqb_spec (DrawList_count pending) 0) as [Hc|Hc].
  - rewrite (snapRenderPassTask_after_snap oc this h this h)
      by (eapply snapDrawPass_empty; eassumption).
    destruct (fDrawPasses this) eqn:Hps; [|reflexivity].
    destruct Hne as [Hne|Hne]; contradiction.
  - erewrite snapRenderPassTask_after_snap
      by (eapply snapDrawPass_nonempty; eassumption).
    simpl. destruct (fDrawPasses this ++ _) eqn:Hps; [|reflexivity].
    exfalso. exact (app_singleton_not_nil _ _ Hps).
Qed.

(** X2: harvesting twice in a row.  Whatever a first [snapRenderPassTask]
    returned, a second one right after it returns the null task and leaves
    the context and the heap as the first left them. *)
Theorem snapRenderPassTask_twice_gives_null oc oc' this h pending :
  fPendingDraws this = Some pending ->
  exists task this' h',
    snapRenderPassTask oc this h = Returns ((task, this'), h') /\
    snapRenderPassTask oc' this' h' = Returns ((nullptr, this'), h').
Proof.
  intros Hp.
  destruct (snapRenderPassTask_drains oc this h pending Hp)
    as (task & this' & h' & pending' & Hr & Hp' & Hd & Hps).
  exists task, this', h'. split; [exact Hr|].
  exact (snapRenderPassTask_nothing oc' this' h' pending' Hp' Hd Hps).
Qed.

(** X3: [snapRenderPassTask] begins with a [snapDrawPass] of its own, so an
    explicit [snapDrawPass] just before it changes nothing but the culler
    that reaches [DrawPass::Make]: the pair behaves as [snapRenderPassTask]
    called with the culler of the explicit snap. *)
Theorem snapDrawPass_before_task_is_absorbed oc oc' this h pending :
  fPendingDraws this = Some pending ->
  (this1 <- snapDrawPass oc this ;; snapRenderPassTask oc' this1) h
  = snapRenderPassTask oc this h.
Proof.
  intros Hp.
  destruct (Nat.eq_dec (DrawList_count pending) 0) as [Hc|Hc].
  - erewrite bind_returns by (eapply snapDrawPass_empty; eassumption).
    rewrite (snapRenderPassTask_after_snap oc' this h this h)
      by (eapply snapDrawPass_empty; eassumption).
    rewrite (snapRenderPassTask_after_snap oc this h this h)
      by (eapply snapDrawPass_empty; eassumption).
    reflexivity.
  - erewrite bind_returns by (eapply snapDrawPass_nonempty; eassumption).
    erewrite (snapRenderPassTask_after_snap oc')
      by (eapply snapDrawPass_empty; reflexivity).
    erewrite (snapRenderPassTask_after_snap oc)
      by (eapply snapDrawPass_nonempty; eassumption).
    reflexivity.
Qed.

(** X4: no sequence of calls on a context from [Make] dereferences a null
    draw list, and harvesting makes the context destroyable.  For a non-null
    target, making a context, applying any sequence of recording,
    [snapDrawPass] and [snapRenderPassTask] calls, calling
    [snapRenderPassTask] and then the destructor runs to the end: nothing
    stops on a null pointer and neither assertion of the destructor fails. *)
Theorem lifetime_runs_to_the_end (t : TextureProxy)
    (colorSpace : sk_sp SkColorSpace) (colorType : SkColorType)
    (alphaType : SkAlphaType) (cs : list Call) oc h :
  exists task h',
    lifetime (Some t) colorSpace colorType alphaType cs oc h
    = Returns (task, h').
Proof.
  unfold lifetime. simpl.
  unfold DrawContext_ctor, make_unique_DrawList.
  unfold bind at 1. unfold bind at 1. unfold bind at 1. simpl.
  unfold bind at 1. simpl.
  set (this0 := {| fTarget := Some t;
                   fImageInfo := _;
                   fPendingDraws := Some {| address := h; fDraws := [] |};
                   fDrawPasses := [] |}).
  assert (Hwf : well_formed this0 (S h)) by (unfold well_formed; simpl; lia).
  destruct (perform_all_keeps cs this0 (S h) Hwf) as (this1 & h1 & Hr & Hwf1).
  erewrite bind_returns by exact Hr.
  apply well_formed_pending in Hwf1 as (pending1 & Hp1 & _).
  destruct (snapRenderPassTask_drains oc this1 h1 pending1 Hp1)
    as (task & this2 & h2 & pending2 & Hr2 & Hp2 & Hd2 & Hps2).
  erewrite bind_returns by exact Hr2.
  exists task, h2. simpl.
  unfold DrawContext_dtor. rewrite Hp2, Hps2. simpl.
  unfold bind, ret, SkASSERT, DrawList_count. rewrite Hd2. reflexivity.
Qed.

(** X5: no draw is lost, duplicated or reordered, and no empty pass is made.
    After any sequence of recording and [snapDrawPass] calls, the pass
    sequence is the old one followed by the passes [DrawPass::Make] gave for
    some draw lists, each handed over with the context's own target; none of
    those lists is empty; their draws, in pass order, followed by the draws
    still pending, are exactly the draws pending before followed by the
    draws recorded, in call order; and one draw list was allocated per pass
    appended. *)
Theorem draws_are_conserved (cs : list Call) :
  forall this h pending,
  fPendingDraws this = Some pending ->
  keeps_passes cs = true ->
  exists this' pending' handed,
    perform_all cs this h = Returns (this', h + length handed) /\
    fPendingDraws this' = Some pending' /\
    fDrawPasses this' =
      fDrawPasses this ++ map (pass_from (fTarget this)) handed /\
    Forall (fun x => fDraws (fst x) <> []) handed /\
    concat (map (fun x => fDraws (fst x)) handed) ++ fDraws pending'
    = fDraws pending ++ recorded cs.
Proof.
  induction cs as [|c rest IH]; intros this h pending Hp Hk.
  - exists this, pending, []. simpl. rewrite Nat.add_0_r, !app_nil_r.
    repeat split; [exact Hp | constructor].
  - simpl in Hk. apply andb_prop in Hk as [Hc Hk].
    destruct c as [call|oc|oc]; [| |discriminate Hc]; simpl.
    + destruct (IH (set_fPendingDraws (Some (DrawList_append call pending))
                      this) h (DrawList_append call pending) eq_refl Hk)
        as (this' & pending' & handed & Hr & Hp' & Hps & Hall & Hd).
      exists this', pending', handed.
      erewrite bind_returns by (apply recording_returns; exact Hp).
      split; [exact Hr|]. split; [exact Hp'|]. split; [exact Hps|].
      split; [exact Hall|]. rewrite Hd. simpl. rewrite <- app_assoc.
      reflexivity.
    + destruct (Nat.eq_dec (DrawList_count pending) 0) as [Hz|Hz].
      * destruct (IH this h pending Hp Hk)
          as (this' & pending' & handed & Hr & Hp' & Hps & Hall & Hd).
        exists this', pending', handed.
        erewrite bind_returns by (eapply snapDrawPass_empty; eassumption).
        repeat split; assumption.
      * destruct (IH {| fTarget := fTarget this;
                        fImageInfo := fImageInfo this;
                        fPendingDraws := Some {| address := h; fDraws := [] |};
                        fDrawPasses :=
                          fDrawPasses this ++
                          [DrawPass_Make (Some pending) (fTarget this) oc] |}
                    (S h) {| address := h; fDraws := [] |} eq_refl Hk)
          as (this' & pending' & handed & Hr & Hp' & Hps & Hall & Hd).
        exists this', pending', ((pending, oc) :: handed).
        erewrite bind_returns by (eapply snapDrawPass_nonempty; eassumption).
        simpl in *. rewrite Nat.add_succ_r. split; [exact Hr|].
        split; [exact Hp'|].
        split; [rewrite Hps, <- app_assoc; reflexivity|].
        split.
        -- constructor; [|exact Hall]. simpl. intros He.
           apply Hz. apply count_zero_iff_no_draws. exact He.
        -- rewrite <- app_assoc, Hd. reflexivity.
Qed.

Lemma last_cons_any {A} (l : list A) (x d d' : A) :
  last (x :: l) d = last (x :: l) d'.
Proof.
  revert x. induction l as [|y l IH]; intros x; [reflexivity|].
  change (last (y :: l) d = last (y :: l) d'). apply IH.
Qed.

Lemma batches_returns (bs : list Batch) :
  forall this a h,
  fPendingDraws this = Some {| address := a; fDraws := [] |} ->
  Forall (fun b => fst b <> []) bs ->
  batches bs this h =
  Returns ({| fTarget := fTarget this;
              fImageInfo := fImageInfo this;
              fPendingDraws :=
                Some {| address := last (a :: seq h (length bs)) a;
                        fDraws := [] |};
              fDrawPasses :=
                fDrawPasses this ++
                map (pass_of (fTarget this))
                  (combine (a :: seq h (length bs)) bs) |},
           h + length bs).
Proof.
  induction bs as [|[calls oc] rest IH]; intros this a h Hp Hall.
  - simpl. rewrite app_nil_r, Nat.add_0_r. unfold ret.
    destruct this; simpl in *. rewrite Hp. reflexivity.
  - inversion Hall as [|b bs' Hb Hrest]; subst. simpl in Hb.
    unfold Batch in *.
    assert (E1 : combine (a :: seq h (length ((calls, oc) :: rest)))
                   ((calls, oc) :: rest)
                 = (a, (calls, oc))
                   :: combine (h :: seq (S h) (length rest)) rest)
      by reflexivity.
    assert (E2 : last (a :: seq h (length ((calls, oc) :: rest))) a
                 = last (h :: seq (S h) (length rest)) h)
      by (change (last (h :: seq (S h) (length rest)) a
                  = last (h :: seq (S h) (length rest)) h);
          apply last_cons_any).
    rewrite E1, E2. clear E1 E2.
    cbn [batches].
    erewrite bind_returns by (eapply recordings_returns; exact Hp).
    erewrite bind_returns.
    2:{ eapply snapDrawPass_nonempty; [reflexivity|].
        unfold DrawList_count; simpl. destruct calls; [contradiction|].
        discriminate. }
    erewrite IH by (first [reflexivity | exact Hrest]).
    cbn [fTarget fImageInfo fDrawPasses set_fPendingDraws length map].
    rewrite <- app_assoc, Nat.add_succ_r. reflexivity.
Qed.

(** X6: any number of batches.  From a context with an empty pending draw
    list, recording k >= 1 non-empty batches, each followed by
    [snapDrawPass], and then calling [snapRenderPassTask] returns what
    [RenderPassTask::Make] gives for the passes snapped before followed by
    exactly k passes, the i-th made from the draws of the i-th batch with
    that batch's culler; the culler of the closing call reaches no pass.
    k draw lists are allocated, and the context is left with an empty pass
    sequence and the last of them, empty, as pending list. *)
Theorem batches_give_one_pass_each (bs : list Batch) oc this a h :
  fPendingDraws this = Some {| address := a; fDraws := [] |} ->
  Forall (fun b => fst b <> []) bs ->
  bs <> [] ->
  let passes :=
    map (pass_of (fTarget this)) (combine (a :: seq h (length bs)) bs) in
  length passes = length bs /\
  (this1 <- batches bs this ;; snapRenderPassTask oc this1) h =
  Returns ((RenderPassTask_Make (fDrawPasses this ++ passes),
            {| fTarget := fTarget this;
               fImageInfo := fImageInfo this;
               fPendingDraws :=
                 Some {| address := h + length bs - 1; fDraws := [] |};
               fDrawPasses := [] |}), h + length bs).
Proof.
  intros Hp Hall Hne passes. split.
  - unfold passes. rewrite length_map, length_combine. cbn [length].
    rewrite length_seq. lia.
  - erewrite bind_returns by (apply batches_returns; eassumption).
    erewrite snapRenderPassTask_after_snap
      by (eapply snapDrawPass_empty; reflexivity).
    fold passes. cbn [fDrawPasses].
    assert (Hlast : last (a :: seq h (length bs)) a = h + length bs - 1).
    { destruct bs as [|b rest]; [contradiction|].
      cbn [length]. rewrite seq_S.
      change (a :: (seq h (length rest) ++ [h + length rest]))
        with ((a :: seq h (length rest)) ++ [h + length rest]).
      rewrite last_last. lia. }
    rewrite Hlast.
    destruct (fDrawPasses this ++ passes) eqn:Hps; [|reflexivity].
    exfalso. apply app_eq_nil in Hps as [_ Hps].
    destruct bs as [|b rest]; [contradiction|]. discriminate Hps.
Qed.

End Properties.

(** ** The properties at work on the sample contexts *)

Import skgpu.Sample.

(** The end-to-end scenario: a context over a 256 x 256 target, one stroke
    and one convex fill recorded, then [snapRenderPassTask]: one task of one
    pass of the two draws in recorded order, after which the destructor
    returns. *)
Example end_to_end :
  (made <- Make (Some target256) nullptr 0 1 ;;
   this <- deref made ;;
   this <- recordings [stroke1; fill1] this ;;
   r <- snapRenderPassTask culler this ;;
   DrawContext_dtor (snd r) ;;
   ret (fst r)) 0
  = Returns
      (Some [Some {| pass_draws :=
                       Some {| address := 0; fDraws := [stroke1; fill1] |};
                     pass_target := Some target256;
                     pass_culler := culler |}], 2).
Proof. reflexivity. Qed.

(** Destroying a context with a draw still pending fails the first
    assertion; calling into a context whose draw list is null stops on the
    dereference. *)
Example dtor_with_pending_draw :
  DrawContext_dtor busy_context 5 = Stops AssertionFailure.
Proof. reflexivity. Qed.

Example snap_without_draw_list :
  snapDrawPass culler (set_fPendingDraws nullptr fresh_context) 4
  = Stops NullDereference.
Proof. reflexivity. Qed.

Lemma C1_two_batches_witness :
  0 < length [stroke1] /\ 0 < length [fill1; stencil1] /\
  two_batches [stroke1] nullptr [fill1; stencil1] (Some 3) fresh_context 4 =
  Returns
    ((RenderPassTask_Make
        [DrawPass_Make (Some {| address := 3; fDraws := [stroke1] |})
           (Some target256) nullptr;
         DrawPass_Make (Some {| address := 4; fDraws := [fill1; stencil1] |})
           (Some target256) (Some 3)],
      {| fTarget := Some target256;
         fImageInfo := SkImageInfo_Make target256 0 1 nullptr;
         fPendingDraws := Some {| address := 5; fDraws := [] |};
         fDrawPasses := [] |}), 6).
Proof.
  split; [simpl; lia|]. split; [simpl; lia|].
  apply (C1_two_batches_give_two_passes
           [stroke1] nullptr [fill1; stencil1] (Some 3) fresh_context 4 3);
    [reflexivity | reflexivity | simpl; lia | simpl; lia].
Defined.

Lemma C2_snapDrawPass_witness :
  well_formed busy_context 5 /\
  exists this' h' added,
    snapDrawPass culler busy_context 5 = Returns (this', h') /\
    pending_count this' = Some 0 /\
    fDrawPasses this' = fDrawPasses busy_context ++ added /\
    length added <= 1 /\
    length (fDrawPasses this') <= 2 /\
    added =
      [DrawPass_Make (fPendingDraws busy_context) (fTarget busy_context)
         culler] /\
    fPendingDraws this' = Some {| address := 5; fDraws := [] |} /\
    h' = 6 /\
    option_map address (fPendingDraws busy_context) <> Some 5.
Proof.
  assert (Hwf : well_formed busy_context 5) by (unfold well_formed; simpl; lia).
  split; [exact Hwf|].
  destruct (C2_snapDrawPass_leaves_pending_empty culler busy_context 5 Hwf)
    as (this' & h' & added & Hr & Hc & Hps & Hla & Hl & _ & Hn).
  exists this', h', added.
  repeat split; try assumption; apply Hn; discriminate.
Defined.

Lemma C4_recordings_witness :
  exists this',
    recordings [stroke1; stencil1] busy_context 5 = Returns (this', 5) /\
    fPendingDraws this' =
      Some {| address := 4; fDraws := [fill1; stroke1; stencil1] |} /\
    pending_count this' = Some 3 /\
    fDrawPasses this' = fDrawPasses busy_context.
Proof.
  exact (C4_recordings_accumulate [stroke1; stencil1] busy_context 5
           {| address := 4; fDraws := [fill1] |} eq_refl).
Defined.

Lemma C5_nothing_recorded_witness :
  snapRenderPassTask (Some 2) fresh_context 4 =
  Returns ((nullptr, fresh_context), 4).
Proof.
  exact (C5_snapRenderPassTask_nothing_recorded (Some 2) fresh_context 4
           {| address := 3; fDraws := [] |} eq_refl eq_refl eq_refl).
Defined.

Lemma C6_drains_witness :
  exists task this' h',
    snapRenderPassTask nullptr busy_context 5 = Returns ((task, this'), h') /\
    pending_count this' = Some 0 /\
    fDrawPasses this' = [].
Proof.
  exact (C6_snapRenderPassTask_drains nullptr busy_context 5
           {| address := 4; fDraws := [fill1] |} eq_refl).
Defined.

Lemma C7_noop_witness :
  snapDrawPass nullptr fresh_context 4 = Returns (fresh_context, 4) /\
  (this1 <- snapDrawPass nullptr busy_context ;; snapDrawPass culler this1) 5
  = snapDrawPass nullptr busy_context 5.
Proof.
  split.
  - apply (proj1 (C7_snapDrawPass_noop_when_empty nullptr culler
                    fresh_context 4 {| address := 3; fDraws := [] |} eq_refl)).
    reflexivity.
  - exact (proj2 (C7_snapDrawPass_noop_when_empty nullptr culler
                    busy_context 5 {| address := 4; fDraws := [fill1] |}
                    eq_refl)).
Defined.

Lemma C8_dtor_witness :
  DrawContext_dtor busy_context 5 = Stops AssertionFailure /\
  (forall oc, exists task this' h',
     snapRenderPassTask oc busy_context 5 = Returns ((task, this'), h') /\
     DrawContext_dtor this' h' = Returns (tt, h')).
Proof.
  split.
  - apply (proj1 (C8_dtor_asserts_drained busy_context 5
                    {| address := 4; fDraws := [fill1] |} eq_refl)).
    left. simpl. discriminate.
  - exact (proj2 (C8_dtor_asserts_drained busy_context 5
                    {| address := 4; fDraws := [fill1] |} eq_refl)).
Defined.

Lemma C9_frame_witness :
  exists this' h',
    perform_all
      [CallRecording stroke1; CallSnapDrawPass nullptr;
       CallRecording fill1; CallSnapRenderPassTask culler]
      busy_context 5 = Returns (this', h') /\
    fTarget this' = Some target256 /\
    fImageInfo this' = SkImageInfo_Make target256 0 1 nullptr.
Proof.
  apply (C9_calls_keep_target_and_image_info
           [CallRecording stroke1; CallSnapDrawPass nullptr;
            CallRecording fill1; CallSnapRenderPassTask culler]
           busy_context 5).
  unfold well_formed; simpl; lia.
Defined.

(** ** The further properties on the sample contexts *)

Lemma snapRenderPassTask_hands_over_witness :
  snapRenderPassTask culler busy_context 5 =
  Returns ((RenderPassTask_Make
              (fDrawPasses busy_context ++
               [DrawPass_Make (Some {| address := 4; fDraws := [fill1] |})
                  (Some target256) culler]),
            {| fTarget := Some target256;
               fImageInfo := SkImageInfo_Make target256 0 1 nullptr;
               fPendingDraws := Some {| address := 5; fDraws := [] |};
               fDrawPasses := [] |}), 6).
Proof.
  apply (snapRenderPassTask_hands_over_all_passes culler busy_context 5
           {| address := 4; fDraws := [fill1] |}).
  - reflexivity.
  - left. simpl. discriminate.
Defined.

Lemma snapRenderPassTask_twice_witness :
  exists task this' h',
    snapRenderPassTask culler busy_context 5 = Returns ((task, this'), h') /\
    snapRenderPassTask nullptr this' h' = Returns ((nullptr, this'), h').
Proof.
  exact (snapRenderPassTask_twice_gives_null culler nullptr busy_context 5
           {| address := 4; fDraws := [fill1] |} eq_refl).
Defined.

Lemma snapDrawPass_before_task_witness :
  (this1 <- snapDrawPass nullptr busy_context ;;
   snapRenderPassTask culler this1) 5
  = snapRenderPassTask nullptr busy_context 5.
Proof.
  exact (snapDrawPass_before_task_is_absorbed nullptr culler busy_context 5
           {| address := 4; fDraws := [fill1] |} eq_refl).
Defined.

Lemma draws_are_conserved_witness :
  exists this' pending' handed,
    perform_all sample_calls busy_context 5
    = Returns (this', 5 + length handed) /\
    fPendingDraws this' = Some pending' /\
    fDrawPasses this' =
      fDrawPasses busy_context ++ map (pass_from (Some target256)) handed /\
    Forall (fun x => fDraws (fst x) <> []) handed /\
    concat (map (fun x => fDraws (fst x)) handed) ++ fDraws pending'
    = [fill1; stroke1; stencil1].
Proof.
  exact (draws_are_conserved sample_calls busy_context 5
           {| address := 4; fDraws := [fill1] |} eq_refl eq_refl).
Defined.

Lemma batches_give_one_pass_each_witness :
  (this1 <- batches sample_batches fresh_context ;;
   snapRenderPassTask culler this1) 4 =
  Returns
    ((RenderPassTask_Make
        [DrawPass_Make (Some {| address := 3; fDraws := [stroke1] |})
           (Some target256) nullptr;
         DrawPass_Make (Some {| address := 4; fDraws := [fill1; stencil1] |})
           (Some target256) culler;
         DrawPass_Make (Some {| address := 5; fDraws := [stencil1] |})
           (Some target256) nullptr],
      {| fTarget := Some target256;
         fImageInfo := SkImageInfo_Make target256 0 1 nullptr;
         fPendingDraws := Some {| address := 6; fDraws := [] |};
         fDrawPasses := [] |}), 7).
Proof.
  apply (batches_give_one_pass_each sample_batches culler fresh_context 3 4).
  - reflexivity.
  - repeat constructor; discriminate.
  - discriminate.
Defined.

End DrawContextSpec.

(** * Properties of [SkSL::dsl::EndRuntimeShader] *)

Module RuntimeEffectsSpec.
Import dsl.
Unset Implicit Arguments.

Section Properties.
Context {types : Types}.
Variable S : Type.
Variable handle : Handler S.

(** The calls made and the result, by cases on what [ReleaseProgram]
    answers. *)
Lemma EndRuntimeShader_exec (options : Options) (s : S) :
  let '(program, s1) := handle _ ReleaseProgram s in
  let '(_, s2) := handle _ (ReportErrors no_position) s1 in
  match program with
  | None =>
      let '(_, s3) := handle _ End s2 in
      exec handle (EndRuntimeShader options) s =
      ([made ReleaseProgram; made (ReportErrors no_position); made End],
       nullptr, s3)
  | Some _ =>
      let '(errors, s3) := handle _ GetErrorReporter s2 in
      let '(result, s4) :=
        handle _ (MakeForShader program options errors) s3 in
      let '(_, s5) := handle _ End s4 in
      exec handle (EndRuntimeShader options) s =
      ([made ReleaseProgram; made (ReportErrors no_position);
        made GetErrorReporter; made (MakeForShader program options errors);
        made End],
       result, s5)
  end.
Proof.
  unfold EndRuntimeShader. simpl.
  destruct (handle _ ReleaseProgram s) as [program s1].
  destruct (handle _ (ReportErrors no_position) s1) as [u s2].
  destruct program as [p|]; simpl.
  - destruct (handle _ GetErrorReporter s2) as [errors s3].
    destruct (handle _ (MakeForShader (Some p) options errors) s3)
      as [result s4].
    destruct (handle _ End s4) as [u' s5]. reflexivity.
  - destruct (handle _ End s2) as [u' s3]. reflexivity.
Qed.

(** C10: whatever the callees answer, [EndRuntimeShader] returns; if
    [ReleaseProgram] answered null, the returned effect is null; and on either
    path the last call made is [End], which is made exactly once. *)
Theorem C10_EndRuntimeShader_always_ends (options : Options) (s : S) :
  let '(log, result, _) := exec handle (EndRuntimeShader options) s in
  (fst (handle _ ReleaseProgram s) = nullptr -> result = nullptr) /\
  exists before,
    log = before ++ [made End] /\ existsb is_End before = false.
Proof.
  pose proof (EndRuntimeShader_exec options s) as He.
  destruct (handle _ ReleaseProgram s) as [program s1].
  destruct (handle _ (ReportErrors no_position) s1) as [u s2].
  destruct program as [p|].
  - destruct (handle _ GetErrorReporter s2) as [errors s3].
    destruct (handle _ (MakeForShader (Some p) options errors) s3)
      as [result s4].
    destruct (handle _ End s4) as [u' s5]. rewrite He. simpl.
    split; [discriminate|].
    exists [made ReleaseProgram; made (ReportErrors no_position);
            made GetErrorReporter; made (MakeForShader (Some p) options errors)].
    split; reflexivity.
  - destruct (handle _ End s2) as [u' s3]. rewrite He. simpl.
    split; [reflexivity|].
    exists [made ReleaseProgram; made (ReportErrors no_position)].
    split; reflexivity.
Qed.

(** X7: [MakeForShader] is requested only for a program that was released.
    Whatever the callees answer, the [MakeForShader] requests that
    [EndRuntimeShader] makes are: none if [ReleaseProgram] answered null, and
    otherwise exactly one, for the released program and the caller's
    options. *)
Theorem MakeForShader_only_for_a_released_program (options : Options) (s : S) :
  let program := fst (handle _ ReleaseProgram s) in
  shader_requests (fst (fst (exec handle (EndRuntimeShader options) s))) =
  match program with
  | Some _ => [(program, options)]
  | None => []
  end.
Proof.
  pose proof (EndRuntimeShader_exec options s) as He.
  destruct (handle _ ReleaseProgram s) as [program s1].
  destruct (handle _ (ReportErrors no_position) s1) as [u s2].
  destruct program as [p|].
  - destruct (handle _ GetErrorReporter s2) as [errors s3].
    destruct (handle _ (MakeForShader (Some p) options errors) s3)
      as [result s4].
    destruct (handle _ End s4) as [u' s5]. rewrite He. reflexivity.
  - destruct (handle _ End s2) as [u' s3]. rewrite He. reflexivity.
Qed.

(** X8: errors are reported on every path, before an effect is made.
    Whatever the callees answer, the first two requests are [ReleaseProgram]
    and [ReportErrors] at [Position{}], and neither is made again after
    them. *)
Theorem errors_reported_first_on_every_path (options : Options) (s : S) :
  exists rest,
    fst (fst (exec handle (EndRuntimeShader options) s)) =
      made ReleaseProgram :: made (ReportErrors no_position) :: rest /\
    existsb is_ReleaseProgram rest = false /\
    Forall (fun m => reported m = None) rest.
Proof.
  pose proof (EndRuntimeShader_exec options s) as He.
  destruct (handle _ ReleaseProgram s) as [program s1].
  destruct (handle _ (ReportErrors no_position) s1) as [u s2].
  destruct program as [p|].
  - destruct (handle _ GetErrorReporter s2) as [errors s3].
    destruct (handle _ (MakeForShader (Some p) options errors) s3)
      as [result s4].
    destruct (handle _ End s4) as [u' s5]. rewrite He.
    eexists. split; [reflexivity|]. split; [reflexivity|].
    repeat constructor.
  - destruct (handle _ End s2) as [u' s3]. rewrite He.
    eexists. split; [reflexivity|]. split; [reflexivity|].
    repeat constructor.
Qed.

End Properties.

(** ** The prologue *)

Section PrologueProperties.
Context {prologue : Prologue} {core : DSLCore}.

(** What [StartRuntimeShader] does, by cases on the context [Start] leaves. *)
Lemma StartRuntimeShader_cases (compiler : ptr Compiler) (c : SkSLContext) :
  StartRuntimeShader compiler c =
  let started := Start compiler kRuntimeShader c in
  match fConfig started with
  | None => Stops NullDereference
  | Some config =>
      if (fInlineThreshold (fSettings config) =? kDefaultInlineThreshold)%Z
      then
        if fAllowNarrowingConversions (fSettings config)
        then Stops AssertionFailure
        else
          Returns (tt,
            {| fConfig :=
                 Some {| fSettings :=
                           {| fInlineThreshold := 0;
                              fAllowNarrowingConversions := true;
                              fOtherSettings :=
                                fOtherSettings (fSettings config) |};
                         fOtherConfig := fOtherConfig config |};
               fOtherContext := fOtherContext started |})
      else Stops AssertionFailure
  end.
Proof.
  unfold StartRuntimeShader, after, read_settings, write_settings, SkASSERT.
  cbv beta iota zeta.
  destruct (fConfig (Start compiler kRuntimeShader c)) as [config|] eqn:Hc;
    [|reflexivity].
  destruct (fInlineThreshold (fSettings config) =? kDefaultInlineThreshold)%Z;
    [|reflexivity].
  cbn. rewrite Hc. cbn.
  destruct (fAllowNarrowingConversions (fSettings config)); reflexivity.
Qed.

(** X9: [StartRuntimeShader] returns exactly when [Start] leaves a
    configuration whose inline threshold is the default one and which does
    not allow narrowing conversions; it then leaves the threshold at 0 and
    narrowing conversions allowed, and every other setting, the rest of the
    configuration and the rest of the context as [Start] left them. *)
Theorem StartRuntimeShader_returns_iff (compiler : ptr Compiler)
    (c c' : SkSLContext) :
  StartRuntimeShader compiler c = Returns (tt, c') <->
  exists config,
    fConfig (Start compiler kRuntimeShader c) = Some config /\
    fInlineThreshold (fSettings config) = kDefaultInlineThreshold /\
    fAllowNarrowingConversions (fSettings config) = false /\
    c' = {| fConfig :=
              Some {| fSettings :=
                        {| fInlineThreshold := 0;
                           fAllowNarrowingConversions := true;
                           fOtherSettings :=
                             fOtherSettings (fSettings config) |};
                      fOtherConfig := fOtherConfig config |};
            fOtherContext :=
              fOtherContext (Start compiler kRuntimeShader c) |}.
Proof.
  rewrite StartRuntimeShader_cases. cbv zeta.
  destruct (fConfig (Start compiler kRuntimeShader c)) as [config|].
  - destruct (Z.eqb_spec (fInlineThreshold (fSettings config))
                kDefaultInlineThreshold) as [Ht|Ht].
    + destruct (fAllowNarrowingConversions (fSettings config)) eqn:Hn.
      * split; [discriminate|].
        intros (config' & [= <-] & _ & Hn' & _). congruence.
      * split.
        -- intros [= <-]. exists config. repeat split; assumption.
        -- intros (config' & [= <-] & _ & _ & ->). reflexivity.
    + split; [discriminate|].
      intros (config' & [= <-] & Ht' & _). contradiction.
  - split; [discriminate|]. intros (config' & Hc & _). discriminate.
Qed.

(** X10: the prologue cannot be run twice over the same settings.  If
    [StartRuntimeShader] has returned, and a following [Start] leaves the
    configuration it finds in place, then the following
    [StartRuntimeShader] stops on a failed assertion. *)
Theorem StartRuntimeShader_again_stops (compiler compiler' : ptr Compiler)
    (c c' : SkSLContext) :
  StartRuntimeShader compiler c = Returns (tt, c') ->
  fConfig (Start compiler' kRuntimeShader c') = fConfig c' ->
  StartRuntimeShader compiler' c' = Stops AssertionFailure.
Proof.
  intros Hr Hkeep. rewrite StartRuntimeShader_cases in Hr. cbv zeta in Hr.
  destruct (fConfig (Start compiler kRuntimeShader c)) as [config|];
    [|discriminate].
  destruct (fInlineThreshold (fSettings config) =? kDefaultInlineThreshold)%Z;
    [|discriminate].
  destruct (fAllowNarrowingConversions (fSettings config)); [discriminate|].
  injection Hr as <-.
  rewrite StartRuntimeShader_cases. cbv zeta. rewrite Hkeep.
  cbn [fConfig fSettings fInlineThreshold fAllowNarrowingConversions].
  destruct (0 =? kDefaultInlineThreshold)%Z; reflexivity.
Qed.

End PrologueProperties.

(** ** The two paths on the sample handler *)

Import dsl.Sample.

Example EndRuntimeShader_with_program :
  exec handle (EndRuntimeShader 3) (Some 5)
  = ([made ReleaseProgram; made (ReportErrors 0); made GetErrorReporter;
      made (MakeForShader (Some 5) 3 7); made End], Some 15, None).
Proof. reflexivity. Qed.

Example EndRuntimeShader_without_program :
  exec handle (EndRuntimeShader 3) None
  = ([made ReleaseProgram; made (ReportErrors 0); made End], nullptr, None).
Proof. reflexivity. Qed.

(** The sample prologue: starting on an idle thread returns with the two
    settings adjusted. *)
Example StartRuntimeShader_from_idle :
  StartRuntimeShader (core := starting) nullptr idle =
  Returns (tt,
    {| fConfig :=
         Some {| fSettings :=
                   {| fInlineThreshold := 0;
                      fAllowNarrowingConversions := true;
                      fOtherSettings := 0 |};
                 fOtherConfig := 0 |};
       fOtherContext := 2 |}).
Proof. reflexivity. Qed.

Lemma StartRuntimeShader_again_witness :
  StartRuntimeShader (core := keeping) nullptr
    {| fConfig :=
         Some {| fSettings :=
                   {| fInlineThreshold := 0;
                      fAllowNarrowingConversions := true;
                      fOtherSettings := 0 |};
                 fOtherConfig := 0 |};
       fOtherContext := 0 |}
  = Stops AssertionFailure.
Proof.
  apply (StartRuntimeShader_again_stops (core := keeping) nullptr nullptr
           {| fConfig :=
                Some {| fSettings := default_settings; fOtherConfig := 0 |};
              fOtherContext := 0 |}).
  - reflexivity.
  - reflexivity.
Defined.

End RuntimeEffectsSpec.
